(** * eksctl: availability-zone selection (pkg/az) and nodegroup labels
    (pkg/actions/label)

    A shallow embedding of [pkg/az/az.go] and of the label manager's
    ownership-resolution protocol, with the properties the design document
    states about them. *)

From Stdlib Require Import DecimalString.
From stdpp Require Import base option list strings gmap.

Open Scope string_scope.
Open Scope list_scope.
Open Scope stdpp_scope.
Open Scope nat_scope.

(** ** Go's [error] values and [fmt] verbs *)

(** An [error] is either a plain message ([errors.New], [fmt.Errorf] without
    [%w]) or a message around another error ([fmt.Errorf] with [%w]); [msg] is
    the whole formatted message of the wrapper. *)
Inductive error : Type :=
| errorString (s : string)
| wrapError (msg : string) (err : error).

Definition Error (e : error) : string :=
  match e with
  | errorString s => s
  | wrapError msg _ => msg
  end.

Definition Unwrap (e : error) : option error :=
  match e with
  | errorString _ => None
  | wrapError _ err => Some err
  end.

(** [%d] on a non-negative int. *)
Definition fmt_d (n : nat) : string := NilEmpty.string_of_uint (Nat.to_uint n).

(** [%v] and [%s] on a [[]string]: the elements between brackets, separated
    by one space. *)
Definition fmt_v (l : list string) : string :=
  "[" +:+ String.concat " " l +:+ "]".

(** ** Outcomes of code that may loop or panic *)

Inductive outcome (A : Type) : Type :=
| Returned (a : A)
| Panicked
| OutOfFuel.
Arguments Returned {A} a.
Arguments Panicked {A}.
Arguments OutOfFuel {A}.

Definition outcome_map {A B : Type} (f : A → B) (o : outcome A) : outcome B :=
  match o with
  | Returned a => Returned (f a)
  | Panicked => Panicked
  | OutOfFuel => OutOfFuel
  end.

(** ** State passing

    A computation reads and extends a record of the calls made to the
    collaborators. *)

Definition ST (S A : Type) : Type := S → A * S.

Definition ret {S A : Type} (a : A) : ST S A := λ s, (a, s).

Definition bind {S A B : Type} (m : ST S A) (f : A → ST S B)
    : ST S B :=
  λ s, let '(a, s') := m s in f a s'.

Notation "x <- m ;; k" := (bind m (λ x, k))
  (at level 100, m at next level, right associativity).

Module Az.

(** ** The api package's constants *)

(** Modelled from the spec: the constants of package [api] (v1alpha5) are
    declared outside the files at hand. The design document gives the
    minimum (2) and the recommended number (3) of zones; the tests name the
    region with the reduced count ["us-east-1"]. *)
Definition MinRequiredAvailabilityZones : nat := 2.
Definition RecommendedAvailabilityZones : nat := 3.
Definition RegionUSEast1 : string := "us-east-1".
Definition RegionCNNorth1 : string := "cn-north-1".

(** ** The EC2 data the package reads *)

Record AvailabilityZone : Type := {
  RegionName : string;
  State : string;
  ZoneName : string;
  ZoneId : string
}.

Record Filter : Type := {
  Name : string;
  Values : list string
}.

Record DescribeAvailabilityZonesInput : Type := {
  ZoneNames : list string;
  Filters : list Filter
}.

Record DescribeAvailabilityZonesOutput : Type := {
  AvailabilityZones : list AvailabilityZone
}.

Definition AvailabilityZoneStateAvailable : string := "available".

(** [ec2iface.EC2API], restricted to the one method the package calls. The
    SDK returns either an output or an error. *)
Record EC2API : Type := {
  DescribeAvailabilityZones :
    DescribeAvailabilityZonesInput → DescribeAvailabilityZonesOutput + error
}.

(** ** Effects: the queries issued and the warnings logged *)

Record World : Type := {
  ec2Calls : list DescribeAvailabilityZonesInput;
  logWarnings : list string
}.

Definition emptyWorld : World := {| ec2Calls := []; logWarnings := [] |}.

Definition M (A : Type) : Type := ST World A.

Definition callDescribeAvailabilityZones (ec2API : EC2API)
    (input : DescribeAvailabilityZonesInput)
    : M (DescribeAvailabilityZonesOutput + error) :=
  λ w, (DescribeAvailabilityZones ec2API input,
        {| ec2Calls := ec2Calls w ++ [input]; logWarnings := logWarnings w |}).

Definition logWarning (msg : string) : M unit :=
  λ w, (tt, {| ec2Calls := ec2Calls w; logWarnings := logWarnings w ++ [msg] |}).

(** ** The zone table and the filter *)

Definition zoneIDsToAvoid : gmap string (list string) :=
  {[ RegionCNNorth1 := ["cnn1-az4"] ]}.

(** Modelled from the spec: [strings.Contains] of package [utils/strings]
    is declared outside the files at hand; the design document has a zone
    dropped when its identifier appears in the table's entry. *)
Definition Contains (list : list string) (s : string) : bool :=
  bool_decide (s ∈ list).

Definition filterZones (region : string) (zones : list AvailabilityZone)
    : list string :=
  let azsToAvoid := default [] (zoneIDsToAvoid !! region) in
  fold_left
    (λ filteredZones z,
       if negb (Contains azsToAvoid (ZoneId z))
       then filteredZones ++ [ZoneName z]
       else filteredZones)
    zones [].

Definition makeFilter (name value : string) : Filter :=
  {| Name := name; Values := [value] |}.

Definition zonesInput (region : string) : DescribeAvailabilityZonesInput :=
  {| ZoneNames := [];
     Filters := [makeFilter "region-name" region;
                 makeFilter "state" AvailabilityZoneStateAvailable] |}.

Definition getAvailabilityZones (ec2API : EC2API) (region : string)
    : M (list string * option error) :=
  let input := zonesInput region in
  r <- callDescribeAvailabilityZones ec2API input ;;
  match r with
  | inr err =>
      ret ([], Some (wrapError
                       ("error getting availability zones for region "
                          +:+ region +:+ ": " +:+ Error err) err))
  | inl output => ret (filterZones region (AvailabilityZones output), None)
  end.

(** ** Random selection *)

(** The inner [for ... range rand.Perm(...)]: append the zone at each drawn
    index, stop as soon as [desiredNumberOfAZs] zones are held. [None] is the
    index-out-of-range panic of [availableZones[rn]]. *)
Fixpoint appendDrawn (desiredNumberOfAZs : nat) (availableZones : list string)
    (perm : list nat) (zones : list string) : option (list string) :=
  match perm with
  | [] => Some zones
  | rn :: perm' =>
      match availableZones !! rn with
      | None => None
      | Some z =>
          let zones' := zones ++ [z] in
          if decide (length zones' = desiredNumberOfAZs) then Some zones'
          else appendDrawn desiredNumberOfAZs availableZones perm' zones'
      end
  end.

(** The outer [for len(zones) < desiredNumberOfAZs]. [randPerm k n] is what
    the [k]-th freshly seeded generator answers to [Perm(n)]; [fuel] bounds
    the number of iterations run. *)
Fixpoint selectLoop (fuel : nat) (randPerm : nat → nat → list nat) (k : nat)
    (desiredNumberOfAZs : nat) (availableZones zones : list string)
    : outcome (list string) :=
  if decide (length zones < desiredNumberOfAZs) then
    match fuel with
    | O => OutOfFuel
    | S fuel' =>
        match appendDrawn desiredNumberOfAZs availableZones
                (randPerm k (length availableZones)) zones with
        | None => Panicked
        | Some zones' =>
            selectLoop fuel' randPerm (S k) desiredNumberOfAZs
              availableZones zones'
        end
    end
  else Returned zones.

Definition desiredNumberOfAZs (region : string) : nat :=
  if decide (region = RegionUSEast1) then MinRequiredAvailabilityZones
  else RecommendedAvailabilityZones.

Definition randomSelectionOfZones (fuel : nat) (randPerm : nat → nat → list nat)
    (region : string) (availableZones : list string) : outcome (list string) :=
  selectLoop fuel randPerm 0 (desiredNumberOfAZs region) availableZones [].

Definition GetAvailabilityZones (fuel : nat) (randPerm : nat → nat → list nat)
    (ec2API : EC2API) (region : string)
    : M (outcome (list string * option error)) :=
  r <- getAvailabilityZones ec2API region ;;
  let '(zones, err) := r in
  match err with
  | Some e => ret (Returned ([], Some e))
  | None =>
      let numberOfZones := length zones in
      if decide (numberOfZones < MinRequiredAvailabilityZones) then
        ret (Returned
               ([], Some (errorString
                            ("only " +:+ fmt_d numberOfZones
                               +:+ " zones discovered " +:+ fmt_v zones
                               +:+ ", at least "
                               +:+ fmt_d MinRequiredAvailabilityZones
                               +:+ " are required"))))
      else if decide (numberOfZones < RecommendedAvailabilityZones) then
        ret (Returned (zones, None))
      else
        ret (outcome_map (λ zs, (zs, None))
               (randomSelectionOfZones fuel randPerm region zones))
  end.

(** ** Local zones *)

Record ClusterVPC : Type := { ID : string }.

(** [api.ClusterConfig], with the fields [SetLocalZones] reads or writes. *)
Record ClusterConfig : Type := {
  VPC : ClusterVPC;
  LocalZones : list string
}.

Definition localZonesWarning : string :=
  "ignoring localZones since existing VPC ID was specified; Local Zones are currently only supported for creating VPCs, not for creating EKS clusters. For more info, see: https://docs.aws.amazon.com/eks/latest/userguide/local-zones.html".

Definition localZonesInput (spec : ClusterConfig) (region : string)
    : DescribeAvailabilityZonesInput :=
  {| ZoneNames := LocalZones spec;
     Filters := [makeFilter "region-name" region;
                 makeFilter "zone-type" "local-zone";
                 makeFilter "state" "available"] |}.

(** [spec] is a pointer in the source; the updated configuration is returned
    next to the error. *)
Definition SetLocalZones (spec : ClusterConfig) (ec2Api : EC2API)
    (region : string) : M (ClusterConfig * option error) :=
  if decide (length (LocalZones spec) = 0) then ret (spec, None)
  else
    _ <- (if decide (ID (VPC spec) ≠ "") then logWarning localZonesWarning
          else ret tt) ;;
    r <- callDescribeAvailabilityZones ec2Api (localZonesInput spec region) ;;
    match r with
    | inr err =>
        ret (spec, Some (wrapError
                           ("error validating local zone(s) "
                              +:+ fmt_v (LocalZones spec) +:+ ": "
                              +:+ Error err) err))
    | inl output =>
        ret ({| VPC := VPC spec;
                LocalZones := filterZones region (AvailabilityZones output) |},
             None)
    end.

(** ** Vocabulary of the properties *)

(** The table's entry for a region; a region without entry avoids nothing. *)
Definition avoided (region : string) : list string :=
  default [] (zoneIDsToAvoid !! region).

Definition denylisted (region : string) (z : AvailabilityZone) : Prop :=
  ZoneId z ∈ avoided region.

#[global] Instance denylisted_dec (region : string) (z : AvailabilityZone) :
  Decision (denylisted region z).
Proof. unfold denylisted. apply _. Defined.

(** [name] is the name of a zone of [source] that the table does not list. *)
Definition passedFilter (region : string) (source : list AvailabilityZone)
    (name : string) : Prop :=
  ∃ z, z ∈ source ∧ ZoneName z = name ∧ ¬ denylisted region z.

(** Within one answer of the source a zone name stands for one zone. *)
Definition namesIdentifyZones (source : list AvailabilityZone) : Prop :=
  ∀ z z', z ∈ source → z' ∈ source → ZoneName z = ZoneName z' →
          ZoneId z = ZoneId z'.

(** The contract of [rand.Perm]: a permutation of [0, n). *)
Definition permSource (randPerm : nat → nat → list nat) : Prop :=
  ∀ k n, randPerm k n ≡ₚ seq 0 n.

(** [zs] are the zones of [availableZones] at the positions [idxs]. *)
Definition drawnAt (availableZones : list string) (idxs : list nat)
    (zs : list string) : Prop :=
  Forall2 (λ i z, availableZones !! i = Some z) idxs zs.

(** ** The test doubles of az_test.go *)

Definition createAvailabilityZoneWithID (region state zone zoneID : string)
    : AvailabilityZone :=
  {| RegionName := region; State := state; ZoneName := zone; ZoneId := zoneID |}.

Definition createAvailabilityZone (region state zone : string)
    : AvailabilityZone :=
  createAvailabilityZoneWithID region state zone ("id-" +:+ zone).

Definition mockZones (region : string) (names : list string)
    : list AvailabilityZone :=
  map (createAvailabilityZone region AvailabilityZoneStateAvailable) names.

Definition mockEC2 (zones : list AvailabilityZone) : EC2API :=
  {| DescribeAvailabilityZones := λ _, inl {| AvailabilityZones := zones |} |}.

Definition failingEC2 (err : error) : EC2API :=
  {| DescribeAvailabilityZones := λ _, inr err |}.

Definition fourZones : list string := ["zone1"; "zone2"; "zone3"; "zone4"].
Definition threeZones : list string := ["zone1"; "zone2"; "zone3"].

(** The zones of the denylist test: the third carries the avoided id. *)
Definition cnNorthZones : list AvailabilityZone :=
  mockZones RegionCNNorth1 ["zone1"; "zone2"]
    ++ [createAvailabilityZoneWithID RegionCNNorth1
          AvailabilityZoneStateAvailable "zone3" "cnn1-az4"].

(** [zonesAreUnique] of az_test.go: every zone is put into a map as a key
    and the number of keys is compared with the number of zones. *)
Definition zonesAreUnique (zones : list string) : bool :=
  let mapZones :=
    fold_left (λ (m : gmap string unit) z, <[z := tt]> m) zones ∅ in
  bool_decide (size mapZones = length zones).

Definition identityPerm : nat → nat → list nat := λ _ n, seq 0 n.
Definition reversePerm : nat → nat → list nat := λ _ n, rev (seq 0 n).

End Az.

Module Label.

(** Modelled from the spec: package [label] (the [Manager] with [Get], [Set]
    and [Unset]) is declared outside the files at hand, which hold its test
    only. The definitions below follow the design document: the Stack Service
    is called first; on a fallback-triggering error the remote control plane
    is called; any other error is returned as it is. *)

Inductive errorClass : Type :=
| ValidationClass
| TransientClass
| AuthorizationClass
| NotFoundClass.

(** Modelled from the spec: the errors of the Stack Service. A failure is a
    control-plane error of some class, another error, or a message wrapped
    around a failure (any number of layers). *)
Inductive error : Type :=
| controlPlaneError (class : errorClass) (msg : string)
| otherError (msg : string)
| wrapped (msg : string) (cause : error).

(** Modelled from the spec: the failure once unwrapped through every
    wrapping layer. *)
Fixpoint rootCause (e : error) : error :=
  match e with
  | wrapped _ cause => rootCause cause
  | _ => e
  end.

(** Modelled from the spec: the ownership-detection rule; an error triggers
    the fallback when its root cause is a control-plane error of the
    validation class. *)
Definition isFallbackTriggering (e : error) : bool :=
  match rootCause e with
  | controlPlaneError ValidationClass _ => true
  | _ => false
  end.

Record StackService : Type := {
  GetLabels : string → gmap string string + error;
  UpdateLabels : string → gmap string string → list string → option error
}.

Inductive LabelsPayload : Type :=
| AddOrUpdateLabels (labels : gmap string string)
| RemoveLabels (keys : list string).

Record RemoteAPI : Type := {
  DescribeNodegroup : string → string → gmap string (option string) + error;
  UpdateNodegroupConfig : string → string → LabelsPayload → option error
}.

Record Manager : Type := {
  clusterName : string;
  service : StackService;
  eksAPI : RemoteAPI
}.

Record Summary : Type := {
  Cluster : string;
  NodeGroup : string;
  Labels : gmap string string
}.

(** The calls made to the two collaborators, in order. *)
Inductive call : Type :=
| StackGetLabels (group : string)
| StackUpdateLabels (group : string) (addOrUpdate : gmap string string)
    (remove : list string)
| RemoteDescribe (cluster group : string)
| RemoteUpdate (cluster group : string) (payload : LabelsPayload).

Definition isRemote (c : call) : bool :=
  match c with
  | RemoteDescribe _ _ | RemoteUpdate _ _ _ => true
  | StackGetLabels _ | StackUpdateLabels _ _ _ => false
  end.

Definition contactsRemote (calls : list call) : bool := existsb isRemote calls.

Definition record {A : Type} (c : call) (a : A) : ST (list call) A :=
  λ calls, (a, calls ++ [c]).

Definition callGetLabels (m : Manager) (group : string) :=
  record (StackGetLabels group) (GetLabels (service m) group).

Definition callUpdateLabels (m : Manager) (group : string)
    (addOrUpdate : gmap string string) (remove : list string) :=
  record (StackUpdateLabels group addOrUpdate remove)
    (UpdateLabels (service m) group addOrUpdate remove).

Definition callDescribeNodegroup (m : Manager) (group : string) :=
  record (RemoteDescribe (clusterName m) group)
    (DescribeNodegroup (eksAPI m) (clusterName m) group).

Definition callUpdateNodegroupConfig (m : Manager) (group : string)
    (payload : LabelsPayload) :=
  record (RemoteUpdate (clusterName m) group payload)
    (UpdateNodegroupConfig (eksAPI m) (clusterName m) group payload).

Section Operations.

(** The conversion of the remote tag map (string to nullable string) into a
    tag set; the design document does not say what a null becomes. *)
Variable toTagSet : gmap string (option string) → gmap string string.

(** Modelled from the spec: [Get] reads the labels from the Stack Service
    and, on a fallback-triggering error, describes the group on the remote
    control plane; any other failure of either path is returned as it is. *)
Definition Get (m : Manager) (nodeGroupName : string)
    : ST (list call) (list Summary * option error) :=
  r <- callGetLabels m nodeGroupName ;;
  match r with
  | inl labels =>
      ret ([{| Cluster := clusterName m; NodeGroup := nodeGroupName;
               Labels := labels |}], None)
  | inr err =>
      if isFallbackTriggering err then
        d <- callDescribeNodegroup m nodeGroupName ;;
        match d with
        | inl tags =>
            ret ([{| Cluster := clusterName m; NodeGroup := nodeGroupName;
                     Labels := toTagSet tags |}], None)
        | inr err' => ret ([], Some err')
        end
      else ret ([], Some err)
  end.

End Operations.

(** Modelled from the spec: [Set] (the name is reserved here, hence the
    underscore) updates through the Stack Service with the add-or-update map
    and, on a fallback-triggering error, through the remote control plane. *)
Definition Set_ (m : Manager) (nodeGroupName : string)
    (labels : gmap string string) : ST (list call) (option error) :=
  r <- callUpdateLabels m nodeGroupName labels [] ;;
  match r with
  | None => ret None
  | Some err =>
      if isFallbackTriggering err then
        callUpdateNodegroupConfig m nodeGroupName (AddOrUpdateLabels labels)
      else ret (Some err)
  end.

(** Modelled from the spec: [Unset] is symmetric to [Set], with the keys to
    remove. *)
Definition Unset (m : Manager) (nodeGroupName : string) (keys : list string)
    : ST (list call) (option error) :=
  r <- callUpdateLabels m nodeGroupName ∅ keys ;;
  match r with
  | None => ret None
  | Some err =>
      if isFallbackTriggering err then
        callUpdateNodegroupConfig m nodeGroupName (RemoveLabels keys)
      else ret (Some err)
  end.

(** The failure, unwrapped, is a control-plane error of the validation
    class. *)
Definition validationClass (e : error) : Prop :=
  ∃ msg, rootCause e = controlPlaneError ValidationClass msg.

(** The doubles of the label test. *)
Definition fakeService (getLabels : gmap string string + error)
    (updateLabels : option error) : StackService :=
  {| GetLabels := λ _, getLabels; UpdateLabels := λ _ _ _, updateLabels |}.

Definition mockEKS (describe : gmap string (option string) + error)
    (update : option error) : RemoteAPI :=
  {| DescribeNodegroup := λ _ _, describe;
     UpdateNodegroupConfig := λ _ _ _, update |}.

Definition notOwnedError : error :=
  wrapped "omg what" (controlPlaneError ValidationClass "ValidationError").

Definition dropNulls (tags : gmap string (option string))
    : gmap string string :=
  omap id tags.

Definition testManager (getLabels : gmap string string + error)
    (updateLabels : option error)
    (describe : gmap string (option string) + error) (update : option error)
    : Manager :=
  {| clusterName := "foo";
     service := fakeService getLabels updateLabels;
     eksAPI := mockEKS describe update |}.

End Label.

(** * Properties *)

Module AzProps.
Import Az.

(** ** The filter *)

Lemma filter_loop_acc (avoid : list string) (zones : list AvailabilityZone)
    (acc : list string) :
  fold_left
    (λ filteredZones z,
       if negb (Contains avoid (ZoneId z))
       then filteredZones ++ [ZoneName z]
       else filteredZones)
    zones acc
  = acc ++ (ZoneName <$> filter (λ z, ZoneId z ∉ avoid) zones).
Proof.
  revert acc. induction zones as [|z zones IH]; intros acc; simpl.
  - by rewrite app_nil_r.
  - rewrite IH. unfold Contains.
    destruct (bool_decide_reflect (ZoneId z ∈ avoid)) as [Hin|Hnin]; simpl.
    + by rewrite filter_cons_False by (intros Hn; by apply Hn).
    + rewrite filter_cons_True by done. by rewrite fmap_cons, <- app_assoc.
Qed.

Lemma filterZones_filter (region : string) (zones : list AvailabilityZone) :
  filterZones region zones
  = ZoneName <$> filter (λ z, ¬ denylisted region z) zones.
Proof. unfold filterZones. by rewrite filter_loop_acc. Qed.

Lemma filterZones_passed (region : string) (zones : list AvailabilityZone)
    (name : string) :
  name ∈ filterZones region zones ↔ passedFilter region zones name.
Proof.
  rewrite filterZones_filter, list_elem_of_fmap. unfold passedFilter.
  split.
  - intros (z & -> & Hz). apply list_elem_of_filter in Hz as [Hok Hin]. eauto.
  - intros (z & Hin & <- & Hok). exists z. split; [done|].
    by apply list_elem_of_filter.
Qed.

Lemma passedFilter_excludes (region : string) (source : list AvailabilityZone)
    (name : string) (z : AvailabilityZone) :
  namesIdentifyZones source → passedFilter region source name →
  z ∈ source → denylisted region z → ZoneName z ≠ name.
Proof.
  intros Hid (z' & Hz' & <- & Hok) Hz Hden Heq.
  apply Hok. unfold denylisted in *. by rewrite <- (Hid z z' Hz Hz' Heq).
Qed.


(** ** Drawing zones at positions *)

Lemma drawnAt_length (avail : list string) (idxs : list nat) (zs : list string) :
  drawnAt avail idxs zs → length zs = length idxs.
Proof. intros H. symmetry. by eapply Forall2_length. Qed.

Lemma drawnAt_elem (avail : list string) (idxs : list nat) (zs : list string) :
  drawnAt avail idxs zs → Forall (λ z, z ∈ avail) zs.
Proof.
  induction 1 as [|i z idxs zs Hi _ IH]; constructor; [|done].
  by eapply list_elem_of_lookup_2.
Qed.

Lemma drawnAt_NoDup (avail : list string) (idxs : list nat) (zs : list string) :
  drawnAt avail idxs zs → NoDup avail → NoDup idxs → NoDup zs.
Proof.
  intros Hd Havail. induction Hd as [|i z idxs zs Hi Hd IH]; intros Hidxs.
  - constructor.
  - apply NoDup_cons in Hidxs as [Hnotin Hidxs]. apply NoDup_cons.
    split; [|by apply IH].
    intros Hz. apply Hnotin. clear IH Hidxs Hnotin.
    induction Hd as [|j z' idxs zs Hj Hd IH]; [by apply elem_of_nil in Hz|].
    apply elem_of_cons in Hz as [->|Hz].
    + rewrite (NoDup_lookup avail i j z' Havail Hi Hj). by left.
    + right. by apply IH.
Qed.

Lemma drawnAt_all (avail : list string) (idxs : list nat) (zs : list string) :
  drawnAt avail idxs zs → idxs ≡ₚ seq 0 (length avail) → zs ≡ₚ avail.
Proof.
  intros Hd Hperm.
  assert (zs = (λ i, default "" (avail !! i)) <$> idxs) as ->.
  { clear Hperm. induction Hd as [|i z idxs zs Hi Hd IH]; [done|].
    rewrite fmap_cons, Hi. simpl. by f_equal. }
  rewrite Hperm. clear.
  assert (∀ (pre : list string),
            (λ i, default "" ((pre ++ avail) !! i))
              <$> seq (length pre) (length avail) = avail) as H.
  { induction avail as [|a avail IH]; intros pre; [done|]. simpl.
    rewrite list_lookup_middle by done. simpl. f_equal.
    specialize (IH (pre ++ [a])).
    rewrite length_app, <- app_assoc in IH. simpl in IH.
    by rewrite Nat.add_1_r in IH. }
  specialize (H []). simpl in H. by rewrite H.
Qed.

(** ** The contract of the random source *)

Section RandomSource.

Variable randPerm : nat → nat → list nat.
Hypothesis randPerm_perm : permSource randPerm.

Lemma randPerm_length (k n : nat) : length (randPerm k n) = n.
Proof. by rewrite (randPerm_perm k n), length_seq. Qed.

Lemma randPerm_NoDup (k n : nat) : NoDup (randPerm k n).
Proof. rewrite (randPerm_perm k n). apply NoDup_seq. Qed.

Lemma randPerm_bound (k n : nat) : Forall (λ i, i < n) (randPerm k n).
Proof.
  apply Forall_forall. intros i Hi. rewrite (randPerm_perm k n) in Hi.
  apply elem_of_seq in Hi. lia.
Qed.

End RandomSource.

(** ** The two loops *)

Lemma appendDrawn_spec (desired : nat) (avail : list string) (perm : list nat)
    (zones : list string) :
  length zones < desired → Forall (λ i, i < length avail) perm →
  ∃ zs, appendDrawn desired avail perm zones = Some (zones ++ zs)
        ∧ drawnAt avail (take (desired - length zones) perm) zs.
Proof.
  revert zones. induction perm as [|rn perm IH]; intros zones Hlt Hall.
  - exists []. simpl. rewrite app_nil_r, take_nil. split; [done|constructor].
  - apply Forall_cons in Hall as [Hrn Hall].
    destruct (lookup_lt_is_Some_2 avail rn Hrn) as [z Hz].
    simpl. rewrite Hz. case_decide as Hlen; rewrite length_app in Hlen;
      simpl in Hlen.
    + exists [z]. split; [done|].
      replace (desired - length zones) with 1 by lia.
      simpl. rewrite take_0. by repeat constructor.
    + destruct (IH (zones ++ [z])) as (zs & Heq & Hd);
        [rewrite length_app; simpl; lia|done|].
      exists (z :: zs). rewrite Heq, <- app_assoc. split; [done|].
      rewrite length_app in Hd. simpl in Hd.
      replace (desired - length zones)
        with (S (desired - (length zones + 1))) by lia.
      simpl. by constructor.
Qed.

Lemma selectLoop_done (fuel : nat) (randPerm : nat → nat → list nat) (k : nat)
    (desired : nat) (avail zones : list string) :
  ¬ length zones < desired →
  selectLoop fuel randPerm k desired avail zones = Returned zones.
Proof. intros H. destruct fuel; simpl; by case_decide. Qed.

Lemma selectLoop_step (fuel : nat) (randPerm : nat → nat → list nat) (k : nat)
    (desired : nat) (avail zones : list string) :
  length zones < desired →
  selectLoop (S fuel) randPerm k desired avail zones
  = match appendDrawn desired avail (randPerm k (length avail)) zones with
    | None => Panicked
    | Some zones' => selectLoop fuel randPerm (S k) desired avail zones'
    end.
Proof. intros H. simpl. by case_decide. Qed.

(** With at least [desired] zones available the first draw is enough: the
    result is the zones at the first [desired] positions drawn. *)
Lemma selectLoop_first_draw (fuel : nat) (randPerm : nat → nat → list nat)
    (k desired : nat) (avail : list string) :
  permSource randPerm → 0 < fuel → desired ≤ length avail →
  ∃ zs, selectLoop fuel randPerm k desired avail [] = Returned zs
        ∧ drawnAt avail (take desired (randPerm k (length avail))) zs
        ∧ length zs = desired.
Proof.
  intros Hperm Hfuel Hle. destruct fuel as [|fuel]; [lia|].
  destruct (decide (desired = 0)) as [->|Hpos].
  - exists []. rewrite selectLoop_done by (simpl; lia).
    rewrite take_0. by repeat split; try constructor.
  - rewrite selectLoop_step by (simpl; lia).
    destruct (appendDrawn_spec desired avail (randPerm k (length avail)) [])
      as (zs & -> & Hd); [simpl; lia|by apply randPerm_bound|].
    simpl in *. rewrite Nat.sub_0_r in Hd.
    assert (length zs = desired) as Hlen.
    { rewrite (drawnAt_length _ _ _ Hd), length_take, randPerm_length by done.
      lia. }
    exists zs. rewrite selectLoop_done by lia. done.
Qed.

(** With a non-empty list every iteration appends at least one zone, so
    [desired] iterations are enough; the zones held all come from the list. *)
Lemma selectLoop_terminates (randPerm : nat → nat → list nat) (desired : nat)
    (avail : list string) :
  permSource randPerm → avail ≠ [] →
  ∀ fuel k zones,
    length zones ≤ desired → desired - length zones ≤ fuel →
    Forall (λ z, z ∈ avail) zones →
    ∃ zs, selectLoop fuel randPerm k desired avail zones = Returned zs
          ∧ length zs = desired ∧ Forall (λ z, z ∈ avail) zs.
Proof.
  intros Hperm Hne. induction fuel as [|fuel IH]; intros k zones Hle Hfuel Hin.
  - exists zones. rewrite selectLoop_done by lia. split; [done|]. split; [lia|done].
  - destruct (decide (length zones < desired)) as [Hlt|Hge].
    + rewrite selectLoop_step by done.
      destruct (appendDrawn_spec desired avail (randPerm k (length avail)) zones)
        as (zs & -> & Hd); [done|by apply randPerm_bound|].
      assert (length zs = (desired - length zones) `min` length avail) as Hlen.
      { by rewrite (drawnAt_length _ _ _ Hd), length_take, randPerm_length. }
      assert (0 < length avail) by (destruct avail; [done|simpl; lia]).
      apply IH; [rewrite length_app; lia|rewrite length_app; lia|].
      apply Forall_app. split; [done|]. by eapply drawnAt_elem.
    + exists zones. rewrite selectLoop_done by done. split; [done|].
      split; [lia|done].
Qed.

(** With an empty list no iteration appends anything: the loop runs on. *)
Lemma selectLoop_empty (randPerm : nat → nat → list nat) (desired : nat) :
  permSource randPerm → 0 < desired →
  ∀ fuel k, selectLoop fuel randPerm k desired [] [] = OutOfFuel.
Proof.
  intros Hperm Hpos. induction fuel as [|fuel IH]; intros k.
  - simpl. case_decide; [done|simpl in *; lia].
  - rewrite selectLoop_step by (simpl; lia). simpl.
    pose proof (Hperm k 0) as Hk. simpl in Hk.
    apply Permutation_nil_r in Hk. rewrite Hk. simpl. apply IH.
Qed.

(** ** Running the exported functions *)

Lemma GetAvailabilityZones_run (fuel : nat) (randPerm : nat → nat → list nat)
    (ec2API : EC2API) (region : string)
    (output : DescribeAvailabilityZonesOutput) (w : World) :
  DescribeAvailabilityZones ec2API (zonesInput region) = inl output →
  (GetAvailabilityZones fuel randPerm ec2API region w).1
  = let zones := filterZones region (AvailabilityZones output) in
    if decide (length zones < MinRequiredAvailabilityZones) then
      Returned ([], Some (errorString
                            ("only " +:+ fmt_d (length zones)
                               +:+ " zones discovered " +:+ fmt_v zones
                               +:+ ", at least "
                               +:+ fmt_d MinRequiredAvailabilityZones
                               +:+ " are required")))
    else if decide (length zones < RecommendedAvailabilityZones) then
      Returned (zones, None)
    else outcome_map (λ zs, (zs, None))
           (randomSelectionOfZones fuel randPerm region zones).
Proof.
  intros Hout.
  unfold GetAvailabilityZones, getAvailabilityZones, bind,
    callDescribeAvailabilityZones, ret.
  rewrite Hout. simpl. by repeat case_decide.
Qed.

Lemma SetLocalZones_run (spec : ClusterConfig) (ec2Api : EC2API)
    (region : string) (w : World) :
  LocalZones spec ≠ [] →
  SetLocalZones spec ec2Api region w
  = (match DescribeAvailabilityZones ec2Api (localZonesInput spec region) with
     | inr err =>
         (spec, Some (wrapError
                        ("error validating local zone(s) "
                           +:+ fmt_v (LocalZones spec) +:+ ": " +:+ Error err)
                        err))
     | inl output =>
         ({| VPC := VPC spec;
             LocalZones := filterZones region (AvailabilityZones output) |},
          None)
     end,
     {| ec2Calls := ec2Calls w ++ [localZonesInput spec region];
        logWarnings :=
          logWarnings w
            ++ (if decide (ID (VPC spec) ≠ "") then [localZonesWarning]
                else []) |}).
Proof.
  intros Hne. unfold SetLocalZones, bind, callDescribeAvailabilityZones,
    logWarning, ret.
  case_decide as Hlen; [by destruct (LocalZones spec)|].
  case_decide; simpl;
    destruct (DescribeAvailabilityZones ec2Api (localZonesInput spec region));
    simpl; rewrite ?app_nil_r; by destruct w.
Qed.

Lemma appendDrawn_elem (desired : nat) (avail : list string) (perm : list nat)
    (zones zones' : list string) :
  appendDrawn desired avail perm zones = Some zones' →
  Forall (λ z, z ∈ avail) zones → Forall (λ z, z ∈ avail) zones'.
Proof.
  revert zones. induction perm as [|rn perm IH]; intros zones Heq Hin; simpl in Heq.
  - by inversion Heq; subst.
  - destruct (avail !! rn) as [z|] eqn:Hz; [|done].
    assert (Forall (λ z, z ∈ avail) (zones ++ [z])) as Hin'.
    { apply Forall_app. split; [done|]. constructor; [|constructor].
      by eapply list_elem_of_lookup_2. }
    case_decide; [by inversion Heq; subst|]. by eapply IH.
Qed.

Lemma selectLoop_elem (randPerm : nat → nat → list nat) (desired : nat)
    (avail : list string) :
  ∀ fuel k zones zs,
    selectLoop fuel randPerm k desired avail zones = Returned zs →
    Forall (λ z, z ∈ avail) zones → Forall (λ z, z ∈ avail) zs.
Proof.
  induction fuel as [|fuel IH]; intros k zones zs Heq Hin; simpl in Heq;
    case_decide; try done; try (by inversion Heq; subst).
  destruct (appendDrawn desired avail (randPerm k (length avail)) zones)
    as [zones'|] eqn:Happ; [|done].
  eapply IH; [done|]. by eapply appendDrawn_elem.
Qed.

Lemma identityPerm_source : permSource identityPerm.
Proof. intros k n. reflexivity. Qed.

Lemma reversePerm_source : permSource reversePerm.
Proof. intros k n. unfold reversePerm. symmetry. apply Permutation_rev. Qed.

Lemma desiredNumberOfAZs_le (region : string) :
  1 ≤ desiredNumberOfAZs region ≤ RecommendedAvailabilityZones.
Proof.
  unfold desiredNumberOfAZs, MinRequiredAvailabilityZones,
    RecommendedAvailabilityZones. case_decide; lia.
Qed.

(** Selection among at least three zones: distinct positions of the first
    draw, two of them in us-east-1 and three elsewhere. *)
Lemma GetAvailabilityZones_draws (fuel : nat) (randPerm : nat → nat → list nat)
    (ec2API : EC2API) (region : string)
    (output : DescribeAvailabilityZonesOutput) (w : World) :
  permSource randPerm → 0 < fuel →
  DescribeAvailabilityZones ec2API (zonesInput region) = inl output →
  RecommendedAvailabilityZones
    ≤ length (filterZones region (AvailabilityZones output)) →
  ∃ zs,
    (GetAvailabilityZones fuel randPerm ec2API region w).1 = Returned (zs, None)
    ∧ drawnAt (filterZones region (AvailabilityZones output))
        (take (desiredNumberOfAZs region)
           (randPerm 0 (length (filterZones region (AvailabilityZones output)))))
        zs
    ∧ length zs = desiredNumberOfAZs region.
Proof.
  intros Hperm Hfuel Hout Hlen.
  rewrite (GetAvailabilityZones_run _ _ _ _ _ _ Hout). simpl.
  unfold MinRequiredAvailabilityZones, RecommendedAvailabilityZones in *.
  do 2 (case_decide; [lia|]).
  pose proof (desiredNumberOfAZs_le region) as Hd.
  unfold RecommendedAvailabilityZones in Hd.
  destruct (selectLoop_first_draw fuel randPerm 0 (desiredNumberOfAZs region)
              (filterZones region (AvailabilityZones output)))
    as (zs & Hrun & Hdrawn & Hzs); [done|done|lia|].
  exists zs. unfold randomSelectionOfZones. rewrite Hrun. done.
Qed.

(** ** The properties of the zone selector *)

(** C2: whatever the Zone Source answers for a region, every name in the
    output of [GetAvailabilityZones], and every name [SetLocalZones] writes
    into the zone-list field, is the name of a zone of that answer whose
    identifier the region's denylist entry does not hold; so, zone names
    standing for one zone each, the name of a denylisted zone is in neither,
    whatever names were requested. *)
Theorem denylisted_zones_never_exposed (region : string)
    (source : list AvailabilityZone) (fuel : nat)
    (randPerm : nat → nat → list nat) (ec2API : EC2API) (w : World)
    (spec : ClusterConfig) (zs : list string) (err : option error) :
  (DescribeAvailabilityZones ec2API (zonesInput region)
     = inl {| AvailabilityZones := source |} →
   (GetAvailabilityZones fuel randPerm ec2API region w).1 = Returned (zs, err) →
   Forall (passedFilter region source) zs
   ∧ (namesIdentifyZones source →
      ∀ z, z ∈ source → denylisted region z → ZoneName z ∉ zs))
  ∧ (LocalZones spec ≠ [] →
     DescribeAvailabilityZones ec2API (localZonesInput spec region)
       = inl {| AvailabilityZones := source |} →
     Forall (passedFilter region source)
       (LocalZones (SetLocalZones spec ec2API region w).1.1)
     ∧ (namesIdentifyZones source →
        ∀ z, z ∈ source → denylisted region z →
             ZoneName z ∉ LocalZones (SetLocalZones spec ec2API region w).1.1)).
Proof.
  assert (∀ l : list string,
            Forall (passedFilter region source) l →
            Forall (passedFilter region source) l
            ∧ (namesIdentifyZones source →
               ∀ z, z ∈ source → denylisted region z → ZoneName z ∉ l))
    as Hsafe.
  { intros l Hl. split; [done|]. intros Hid z Hz Hden Hin.
    rewrite Forall_forall in Hl.
    by eapply (passedFilter_excludes region source (ZoneName z) z); eauto. }
  assert (∀ l : list string,
            Forall (λ z, z ∈ filterZones region source) l →
            Forall (passedFilter region source) l) as Hfrom.
  { intros l Hl. eapply Forall_impl; [done|].
    intros name. by apply filterZones_passed. }
  split.
  - intros Hout Hrun. apply Hsafe, Hfrom.
    rewrite (GetAvailabilityZones_run _ _ _ _ _ _ Hout) in Hrun. simpl in Hrun.
    repeat case_decide.
    + inversion Hrun; subst. constructor.
    + inversion Hrun; subst. by apply Forall_forall.
    + unfold randomSelectionOfZones in Hrun.
      destruct (selectLoop fuel randPerm 0 (desiredNumberOfAZs region)
                  (filterZones region source) []) as [zs'| |] eqn:Hloop;
        simpl in Hrun; [|done..].
      inversion Hrun; subst.
      eapply selectLoop_elem; [done|constructor].
  - intros Hne Hout. apply Hsafe, Hfrom.
    rewrite SetLocalZones_run, Hout by done. simpl. by apply Forall_forall.
Qed.

Lemma denylisted_zones_never_exposed_witness :
  Forall (passedFilter RegionCNNorth1 cnNorthZones) ["zone1"; "zone2"]
  ∧ Forall (passedFilter RegionCNNorth1 cnNorthZones)
      (LocalZones
         (SetLocalZones {| VPC := {| ID := "" |}; LocalZones := ["zone3"] |}
            (mockEC2 cnNorthZones) RegionCNNorth1 emptyWorld).1.1).
Proof.
  pose proof (denylisted_zones_never_exposed RegionCNNorth1 cnNorthZones 1
                identityPerm (mockEC2 cnNorthZones) emptyWorld
                {| VPC := {| ID := "" |}; LocalZones := ["zone3"] |}
                ["zone1"; "zone2"] None) as [Hget Hset].
  split.
  - apply Hget; vm_compute; reflexivity.
  - apply Hset; [discriminate|reflexivity].
Defined.

(** C3: with at least three zones left by the filter, [GetAvailabilityZones]
    returns zones drawn from them at pairwise distinct positions (without
    replacement), hence pairwise distinct names when the filtered names are;
    it returns exactly 3 of them, and exactly 2 in us-east-1. *)
Theorem GetAvailabilityZones_random_selection (fuel : nat)
    (randPerm : nat → nat → list nat) (ec2API : EC2API) (region : string)
    (output : DescribeAvailabilityZonesOutput) (w : World) :
  permSource randPerm → 0 < fuel →
  DescribeAvailabilityZones ec2API (zonesInput region) = inl output →
  RecommendedAvailabilityZones
    ≤ length (filterZones region (AvailabilityZones output)) →
  ∃ idxs zs,
    (GetAvailabilityZones fuel randPerm ec2API region w).1 = Returned (zs, None)
    ∧ NoDup idxs
    ∧ drawnAt (filterZones region (AvailabilityZones output)) idxs zs
    ∧ Forall (λ z, z ∈ filterZones region (AvailabilityZones output)) zs
    ∧ length zs = (if decide (region = "us-east-1") then 2 else 3)
    ∧ (NoDup (filterZones region (AvailabilityZones output)) → NoDup zs).
Proof.
  intros Hperm Hfuel Hout Hlen.
  destruct (GetAvailabilityZones_draws fuel randPerm ec2API region output w)
    as (zs & Hrun & Hdrawn & Hzs); [done..|].
  eexists _, zs. split; [done|].
  assert (NoDup (take (desiredNumberOfAZs region)
                   (randPerm 0 (length (filterZones region
                                          (AvailabilityZones output))))))
    as Hnodup.
  { exact (sublist_NoDup _ _ (randPerm_NoDup randPerm Hperm 0 _)
             (sublist_take _ _)). }
  split; [done|]. split; [done|]. split; [by eapply drawnAt_elem|].
  split; [done|]. intros Havail. by eapply drawnAt_NoDup.
Qed.

Lemma GetAvailabilityZones_random_selection_witness :
  ∃ zs,
    (GetAvailabilityZones 1 reversePerm
       (mockEC2 (mockZones "us-east-1" fourZones)) "us-east-1" emptyWorld).1
    = Returned (zs, None) ∧ length zs = 2 ∧ NoDup zs.
Proof.
  destruct (GetAvailabilityZones_random_selection 1 reversePerm
              (mockEC2 (mockZones "us-east-1" fourZones)) "us-east-1"
              {| AvailabilityZones := mockZones "us-east-1" fourZones |}
              emptyWorld)
    as (idxs & zs & Hrun & _ & _ & _ & Hlen & Hnodup).
  - exact reversePerm_source.
  - lia.
  - reflexivity.
  - vm_compute. lia.
  - exists zs. split; [exact Hrun|]. split; [exact Hlen|].
    apply Hnodup. apply (bool_decide_unpack _). vm_compute. exact I.
Defined.

(** C4, as amended: with exactly 2 zones left by the filter
    [GetAvailabilityZones] returns all of them, in the source's order, whatever
    the random source; with exactly 3 it goes through the random selection
    and returns the zones at the first positions drawn: all three, in the
    order drawn, outside us-east-1, and only 2 of the 3 in us-east-1. *)
Theorem GetAvailabilityZones_two_or_three (fuel : nat)
    (randPerm : nat → nat → list nat) (ec2API : EC2API) (region : string)
    (output : DescribeAvailabilityZonesOutput) (w : World) :
  permSource randPerm → 0 < fuel →
  DescribeAvailabilityZones ec2API (zonesInput region) = inl output →
  (length (filterZones region (AvailabilityZones output)) = 2 →
   ∀ fuel' randPerm',
     (GetAvailabilityZones fuel' randPerm' ec2API region w).1
     = Returned (filterZones region (AvailabilityZones output), None))
  ∧ (length (filterZones region (AvailabilityZones output)) = 3 →
     ∃ zs,
       (GetAvailabilityZones fuel randPerm ec2API region w).1
       = Returned (zs, None)
       ∧ drawnAt (filterZones region (AvailabilityZones output))
           (take (desiredNumberOfAZs region) (randPerm 0 3)) zs
       ∧ (region ≠ "us-east-1" →
          zs ≡ₚ filterZones region (AvailabilityZones output))
       ∧ (region = "us-east-1" → length zs = 2)).
Proof.
  intros Hperm Hfuel Hout. split.
  - intros Hlen fuel' randPerm'.
    rewrite (GetAvailabilityZones_run _ _ _ _ _ _ Hout). simpl.
    unfold MinRequiredAvailabilityZones, RecommendedAvailabilityZones.
    rewrite Hlen. by repeat (case_decide; try lia).
  - intros Hlen.
    destruct (GetAvailabilityZones_draws fuel randPerm ec2API region output w)
      as (zs & Hrun & Hdrawn & Hzs);
      [done|done|done|unfold RecommendedAvailabilityZones; lia|].
    rewrite Hlen in Hdrawn. exists zs. split; [done|]. split; [done|].
    unfold desiredNumberOfAZs, RegionUSEast1 in *. split.
    + intros Hne. case_decide; [done|].
      eapply drawnAt_all; [done|]. rewrite Hlen.
      rewrite take_ge by (rewrite randPerm_length; done). apply Hperm.
    + intros ->. by case_decide.
Qed.

Lemma GetAvailabilityZones_two_or_three_witness :
  ∃ zs,
    (GetAvailabilityZones 1 reversePerm
       (mockEC2 (mockZones "us-west-1" threeZones)) "us-west-1" emptyWorld).1
    = Returned (zs, None)
    ∧ zs ≡ₚ threeZones.
Proof.
  destruct (GetAvailabilityZones_two_or_three 1 reversePerm
              (mockEC2 (mockZones "us-west-1" threeZones)) "us-west-1"
              {| AvailabilityZones := mockZones "us-west-1" threeZones |}
              emptyWorld reversePerm_source) as [_ Hthree].
  - lia.
  - reflexivity.
  - destruct Hthree as (zs & Hrun & _ & Hall & _); [reflexivity|].
    exists zs. split; [exact Hrun|]. apply Hall. discriminate.
Defined.

(** C4, as stated, fails in us-east-1: with exactly three zones left by the
    filter only two are returned. *)
Lemma GetAvailabilityZones_three_in_us_east_1 :
  length (filterZones "us-east-1" (mockZones "us-east-1" threeZones)) = 3
  ∧ (GetAvailabilityZones 1 identityPerm
       (mockEC2 (mockZones "us-east-1" threeZones)) "us-east-1" emptyWorld).1
    = Returned (["zone1"; "zone2"], None)
  ∧ ¬ (∃ zs,
         (GetAvailabilityZones 1 identityPerm
            (mockEC2 (mockZones "us-east-1" threeZones)) "us-east-1"
            emptyWorld).1 = Returned (zs, None)
         ∧ ∀ z, z ∈ filterZones "us-east-1" (mockZones "us-east-1" threeZones)
                → z ∈ zs).
Proof.
  split; [reflexivity|]. split; [reflexivity|].
  intros (zs & Hrun & Hall).
  assert (zs = ["zone1"; "zone2"]) as -> by (vm_compute in Hrun; congruence).
  assert ("zone3" ∈ ["zone1"; "zone2"]) as Hin.
  { apply Hall. apply (bool_decide_unpack _). vm_compute. exact I. }
  exact (bool_decide_pack _ Hin).
Qed.

Lemma append_assoc (a b c : string) : (a +:+ b) +:+ c = a +:+ (b +:+ c).
Proof.
  induction a as [|x a IH]; [done|].
  change (String x ((a +:+ b) +:+ c) = String x (a +:+ (b +:+ c))).
  by f_equal.
Qed.

(** C5: with fewer than 2 zones left by the filter [GetAvailabilityZones]
    returns no zones and an error whose message gives their number, their
    names and the required minimum 2; with exactly one zone it reads
    "only 1 zones discovered [name], at least 2 are required". *)
Theorem GetAvailabilityZones_too_few (fuel : nat)
    (randPerm : nat → nat → list nat) (ec2API : EC2API) (region : string)
    (output : DescribeAvailabilityZonesOutput) (w : World) :
  DescribeAvailabilityZones ec2API (zonesInput region) = inl output →
  length (filterZones region (AvailabilityZones output))
    < MinRequiredAvailabilityZones →
  ∃ e,
    (GetAvailabilityZones fuel randPerm ec2API region w).1
    = Returned ([], Some e)
    ∧ Error e
      = "only "
          +:+ fmt_d (length (filterZones region (AvailabilityZones output)))
          +:+ " zones discovered "
          +:+ fmt_v (filterZones region (AvailabilityZones output))
          +:+ ", at least 2 are required"
    ∧ (filterZones region (AvailabilityZones output) = [] →
       Error e = "only 0 zones discovered [], at least 2 are required")
    ∧ (∀ name, filterZones region (AvailabilityZones output) = [name] →
       Error e
       = "only 1 zones discovered [" +:+ name
           +:+ "], at least 2 are required").
Proof.
  intros Hout Hlen.
  rewrite (GetAvailabilityZones_run _ _ _ _ _ _ Hout). simpl.
  case_decide; [|done]. eexists. split; [done|]. simpl.
  split; [done|]. split.
  - by intros ->.
  - intros name ->. simpl. unfold fmt_v. simpl.
    by rewrite !append_assoc.
Qed.

Lemma GetAvailabilityZones_too_few_witness :
  ∃ e,
    (GetAvailabilityZones 1 identityPerm
       (mockEC2 (mockZones "us-west-1" ["zone1"])) "us-west-1" emptyWorld).1
    = Returned ([], Some e)
    ∧ Error e = "only 1 zones discovered [zone1], at least 2 are required".
Proof.
  destruct (GetAvailabilityZones_too_few 1 identityPerm
              (mockEC2 (mockZones "us-west-1" ["zone1"])) "us-west-1"
              {| AvailabilityZones := mockZones "us-west-1" ["zone1"] |}
              emptyWorld) as (e & Hrun & _ & _ & Hone).
  - reflexivity.
  - vm_compute. lia.
  - exists e. split; [exact Hrun|]. apply (Hone "zone1"). reflexivity.
Defined.

(** C9: for a target count of at least 1 the selection loop returns exactly
    when the list of available zones is not empty (on an empty list it runs
    on, whatever the fuel). On a non-empty list it returns the target number
    of zones; when the list is shorter than the target these hold a name
    twice, and when it is at least as long, and its names distinct, they are
    pairwise distinct. [randomSelectionOfZones] is this loop at the target
    count of the region, and [GetAvailabilityZones] calls it only with at
    least as many zones as that count. *)
Theorem randomSelectionOfZones_termination (randPerm : nat → nat → list nat)
    (desired : nat) (avail : list string) :
  permSource randPerm → 1 ≤ desired →
  ((∃ fuel zs, selectLoop fuel randPerm 0 desired avail [] = Returned zs)
   ↔ avail ≠ [])
  ∧ (avail = [] →
     ∀ fuel, selectLoop fuel randPerm 0 desired avail [] = OutOfFuel)
  ∧ (avail ≠ [] →
     ∀ fuel, desired ≤ fuel →
       ∃ zs, selectLoop fuel randPerm 0 desired avail [] = Returned zs
             ∧ length zs = desired
             ∧ Forall (λ z, z ∈ avail) zs
             ∧ (length avail < desired → ¬ NoDup zs)
             ∧ (desired ≤ length avail → NoDup avail → NoDup zs))
  ∧ (∀ fuel region,
       desired = desiredNumberOfAZs region →
       randomSelectionOfZones fuel randPerm region avail
       = selectLoop fuel randPerm 0 desired avail [])
  ∧ (∀ fuel ec2API region output w,
       DescribeAvailabilityZones ec2API (zonesInput region) = inl output →
       avail = filterZones region (AvailabilityZones output) →
       (length avail < RecommendedAvailabilityZones →
        ∀ fuel' randPerm',
          (GetAvailabilityZones fuel' randPerm' ec2API region w).1
          = (GetAvailabilityZones fuel randPerm ec2API region w).1)
       ∧ (RecommendedAvailabilityZones ≤ length avail →
          desiredNumberOfAZs region ≤ length avail
          ∧ (GetAvailabilityZones fuel randPerm ec2API region w).1
            = outcome_map (λ zs, (zs, None))
                (randomSelectionOfZones fuel randPerm region avail))).
Proof.
  intros Hperm Hpos.
  assert (avail ≠ [] →
          ∀ fuel, desired ≤ fuel →
            ∃ zs, selectLoop fuel randPerm 0 desired avail [] = Returned zs
                  ∧ length zs = desired ∧ Forall (λ z, z ∈ avail) zs)
    as Hterm.
  { intros Hne fuel Hfuel.
    apply selectLoop_terminates; simpl; try done; try lia. }
  assert (avail = [] →
          ∀ fuel, selectLoop fuel randPerm 0 desired avail [] = OutOfFuel)
    as Hloop.
  { intros -> fuel. apply selectLoop_empty; [done|lia]. }
  split; [|split; [done|split; [|split]]].
  - split.
    + intros (fuel & zs & Hrun) ->. by rewrite Hloop in Hrun.
    + intros Hne. destruct (Hterm Hne desired) as (zs & Hrun & _); [done|].
      by exists desired, zs.
  - intros Hne fuel Hfuel.
    destruct (Hterm Hne fuel Hfuel) as (zs & Hrun & Hlen & Hin).
    exists zs. split; [done|]. split; [done|]. split; [done|]. split.
    + intros Hshort Hnodup.
      assert (length zs ≤ length avail); [|lia].
      apply submseteq_length, NoDup_submseteq; [done|].
      by apply Forall_forall.
    + intros Hlong Havail.
      destruct (selectLoop_first_draw fuel randPerm 0 desired avail)
        as (zs' & Hrun' & Hdrawn & _); [done|lia|done|].
      rewrite Hrun in Hrun'. inversion Hrun'; subst zs'.
      eapply drawnAt_NoDup; [done|done|].
      exact (sublist_NoDup _ _ (randPerm_NoDup randPerm Hperm 0 _)
               (sublist_take _ _)).
  - by intros fuel region ->.
  - intros fuel ec2API region output w Hout ->. split.
    + intros Hfew fuel' randPerm'.
      rewrite !(GetAvailabilityZones_run _ _ _ _ _ _ Hout). simpl.
      repeat case_decide; try done; lia.
    + intros Hmany. pose proof (desiredNumberOfAZs_le region).
      split; [lia|].
      rewrite (GetAvailabilityZones_run _ _ _ _ _ _ Hout). simpl.
      unfold MinRequiredAvailabilityZones, RecommendedAvailabilityZones in *.
      repeat case_decide; try done; lia.
Qed.

Lemma randomSelectionOfZones_termination_witness :
  ∃ zs, selectLoop 3 reversePerm 0 3 ["zone1"; "zone2"] [] = Returned zs
        ∧ length zs = 3 ∧ ¬ NoDup zs.
Proof.
  destruct (randomSelectionOfZones_termination reversePerm 3
              ["zone1"; "zone2"] reversePerm_source)
    as (_ & _ & Hret & _).
  - lia.
  - destruct (Hret ltac:(discriminate) 3 ltac:(lia))
      as (zs & Hrun & Hlen & _ & Hdup & _).
    exists zs. split; [exact Hrun|]. split; [exact Hlen|].
    apply Hdup. simpl. lia.
Defined.

(** ** The properties of the local-zone validation *)

(** C6: for a non-empty requested list and a successful query,
    [SetLocalZones] succeeds and overwrites the zone-list field with the
    names, in the source's order, of the returned zones the denylist does not
    hold; a requested zone that is denylisted or not returned is dropped
    without an error. Nothing else of the configuration changes. *)
Theorem SetLocalZones_overwrites (spec : ClusterConfig) (ec2Api : EC2API)
    (region : string) (output : DescribeAvailabilityZonesOutput) (w : World) :
  LocalZones spec ≠ [] →
  DescribeAvailabilityZones ec2Api (localZonesInput spec region) = inl output →
  (SetLocalZones spec ec2Api region w).1.2 = None
  ∧ LocalZones (SetLocalZones spec ec2Api region w).1.1
    = filterZones region (AvailabilityZones output)
  ∧ LocalZones (SetLocalZones spec ec2Api region w).1.1
    = ZoneName <$> filter (λ z, ¬ denylisted region z)
                     (AvailabilityZones output)
  ∧ VPC (SetLocalZones spec ec2Api region w).1.1 = VPC spec
  ∧ (∀ name, name ∈ LocalZones spec →
       ¬ passedFilter region (AvailabilityZones output) name →
       name ∉ LocalZones (SetLocalZones spec ec2Api region w).1.1).
Proof.
  intros Hne Hout. rewrite SetLocalZones_run, Hout by done. simpl.
  split; [done|]. split; [done|]. split; [apply filterZones_filter|].
  split; [done|]. intros name _ Hnot Hin. by apply Hnot, filterZones_passed.
Qed.

Lemma SetLocalZones_overwrites_witness :
  (SetLocalZones
     {| VPC := {| ID := "" |}; LocalZones := ["zone1"; "zone3"; "zone9"] |}
     (mockEC2 cnNorthZones) RegionCNNorth1 emptyWorld).1.2 = None
  ∧ LocalZones
      (SetLocalZones
         {| VPC := {| ID := "" |}; LocalZones := ["zone1"; "zone3"; "zone9"] |}
         (mockEC2 cnNorthZones) RegionCNNorth1 emptyWorld).1.1
    = filterZones RegionCNNorth1 cnNorthZones.
Proof.
  destruct (SetLocalZones_overwrites
              {| VPC := {| ID := "" |};
                 LocalZones := ["zone1"; "zone3"; "zone9"] |}
              (mockEC2 cnNorthZones) RegionCNNorth1
              {| AvailabilityZones := cnNorthZones |} emptyWorld)
    as (Hok & Hfield & _).
  - discriminate.
  - reflexivity.
  - split; [exact Hok|exact Hfield].
Defined.

(** C7: for a non-empty requested list, when the query fails
    [SetLocalZones] returns an error that wraps the cause and whose message
    names the requested zones and the cause; the configuration is returned as
    it was. *)
Theorem SetLocalZones_query_error (spec : ClusterConfig) (ec2Api : EC2API)
    (region : string) (cause : error) (w : World) :
  LocalZones spec ≠ [] →
  DescribeAvailabilityZones ec2Api (localZonesInput spec region) = inr cause →
  ∃ e,
    (SetLocalZones spec ec2Api region w).1 = (spec, Some e)
    ∧ Unwrap e = Some cause
    ∧ Error e
      = "error validating local zone(s) " +:+ fmt_v (LocalZones spec)
          +:+ ": " +:+ Error cause.
Proof.
  intros Hne Hout. rewrite SetLocalZones_run, Hout by done. simpl.
  by eexists.
Qed.

Lemma SetLocalZones_query_error_witness :
  ∃ e,
    (SetLocalZones
       {| VPC := {| ID := "" |};
          LocalZones := ["us-west-2-lax-1"; "us-west-2-lax-2"] |}
       (failingEC2 (errorString "err")) "us-west-2" emptyWorld).1
    = ({| VPC := {| ID := "" |};
          LocalZones := ["us-west-2-lax-1"; "us-west-2-lax-2"] |}, Some e)
    ∧ Unwrap e = Some (errorString "err")
    ∧ Error e
      = "error validating local zone(s) [us-west-2-lax-1 us-west-2-lax-2]: err".
Proof.
  apply (SetLocalZones_query_error
           {| VPC := {| ID := "" |};
              LocalZones := ["us-west-2-lax-1"; "us-west-2-lax-2"] |}
           (failingEC2 (errorString "err")) "us-west-2" (errorString "err")
           emptyWorld).
  - discriminate.
  - reflexivity.
Defined.

(** C8: with an empty requested list [SetLocalZones] succeeds at once: the
    configuration is returned as it was, no query is issued and nothing is
    logged. *)
Theorem SetLocalZones_empty_noop (spec : ClusterConfig) (ec2Api : EC2API)
    (region : string) (w : World) :
  LocalZones spec = [] →
  SetLocalZones spec ec2Api region w = ((spec, None), w)
  ∧ ec2Calls (SetLocalZones spec ec2Api region w).2 = ec2Calls w.
Proof.
  intros Hempty. unfold SetLocalZones. rewrite Hempty. simpl. done.
Qed.

Lemma SetLocalZones_empty_noop_witness :
  SetLocalZones {| VPC := {| ID := "vpc-1" |}; LocalZones := [] |}
    (failingEC2 (errorString "err")) "us-west-2" emptyWorld
  = (({| VPC := {| ID := "vpc-1" |}; LocalZones := [] |}, None), emptyWorld).
Proof.
  apply (SetLocalZones_empty_noop
           {| VPC := {| ID := "vpc-1" |}; LocalZones := [] |}
           (failingEC2 (errorString "err")) "us-west-2" emptyWorld).
  reflexivity.
Defined.

(** C10: for a non-empty requested list, two configurations that differ in
    the VPC ID only make [SetLocalZones] issue the same query, end with the
    same error or success and leave the same zone-list field; a non-empty VPC
    ID adds one warning to the log and nothing else. *)
Theorem SetLocalZones_vpc_id_irrelevant (zones : list string)
    (id1 id2 : string) (ec2Api : EC2API) (region : string) (w : World) :
  zones ≠ [] →
  let run id :=
    SetLocalZones {| VPC := {| ID := id |}; LocalZones := zones |}
      ec2Api region w in
  ec2Calls (run id1).2 = ec2Calls (run id2).2
  ∧ (run id1).1.2 = (run id2).1.2
  ∧ LocalZones (run id1).1.1 = LocalZones (run id2).1.1
  ∧ ID (VPC (run id1).1.1) = id1
  ∧ logWarnings (run id1).2
    = logWarnings w ++ (if decide (id1 ≠ "") then [localZonesWarning] else []).
Proof.
  intros Hne run. unfold run. rewrite !SetLocalZones_run by done. simpl.
  unfold localZonesInput. simpl.
  by destruct (DescribeAvailabilityZones ec2Api _).
Qed.

Lemma SetLocalZones_vpc_id_irrelevant_witness :
  (SetLocalZones {| VPC := {| ID := "vpc-1" |}; LocalZones := ["zone3"] |}
     (mockEC2 cnNorthZones) RegionCNNorth1 emptyWorld).1.2
  = (SetLocalZones {| VPC := {| ID := "" |}; LocalZones := ["zone3"] |}
       (mockEC2 cnNorthZones) RegionCNNorth1 emptyWorld).1.2.
Proof.
  destruct (SetLocalZones_vpc_id_irrelevant ["zone3"] "vpc-1" ""
              (mockEC2 cnNorthZones) RegionCNNorth1 emptyWorld)
    as (_ & Herr & _).
  - discriminate.
  - exact Herr.
Defined.

Example one_zone_test :
  (GetAvailabilityZones 1 identityPerm (mockEC2 (mockZones "us-west-1" ["zone1"]))
     "us-west-1" emptyWorld).1
  = Returned ([], Some (errorString
       "only 1 zones discovered [zone1], at least 2 are required")).
Proof. vm_compute. reflexivity. Qed.

Example four_zones_test :
  (GetAvailabilityZones 1 reversePerm
     (mockEC2 (mockZones "us-west-1" ["zone1"; "zone2"; "zone3"; "zone4"]))
     "us-west-1" emptyWorld).1
  = Returned (["zone4"; "zone3"; "zone2"], None).
Proof. vm_compute. reflexivity. Qed.

Example us_east_1_test :
  (GetAvailabilityZones 1 reversePerm
     (mockEC2 (mockZones "us-east-1" ["zone1"; "zone2"; "zone3"; "zone4"]))
     "us-east-1" emptyWorld).1
  = Returned (["zone4"; "zone3"], None).
Proof. vm_compute. reflexivity. Qed.

Example denylisted_test :
  (GetAvailabilityZones 1 identityPerm
     (mockEC2 (mockZones RegionCNNorth1 ["zone1"; "zone2"]
                 ++ [createAvailabilityZoneWithID RegionCNNorth1
                       AvailabilityZoneStateAvailable "zone3" "cnn1-az4"]))
     RegionCNNorth1 emptyWorld).1
  = Returned (["zone1"; "zone2"], None).
Proof. vm_compute. reflexivity. Qed.

Example fetch_error_test :
  (GetAvailabilityZones 1 identityPerm (failingEC2 (errorString "foo"))
     "us-west-1" emptyWorld).1
  = Returned ([], Some (wrapError
       "error getting availability zones for region us-west-1: foo"
       (errorString "foo"))).
Proof. vm_compute. reflexivity. Qed.

Example local_zone_error_test :
  (SetLocalZones {| VPC := {| ID := "" |};
                    LocalZones := ["us-west-2-lax-1"; "us-west-2-lax-2"] |}
     (failingEC2 (errorString "err")) "us-west-2" emptyWorld).1.2
  = Some (wrapError
       "error validating local zone(s) [us-west-2-lax-1 us-west-2-lax-2]: err"
       (errorString "err")).
Proof. vm_compute. reflexivity. Qed.

Example local_zone_avoided_test :
  (SetLocalZones {| VPC := {| ID := "" |}; LocalZones := ["cnn1-az4"] |}
     (mockEC2 [createAvailabilityZoneWithID RegionCNNorth1 "available"
                 "cnn1-az4" "cnn1-az4"])
     RegionCNNorth1 emptyWorld).1
  = ({| VPC := {| ID := "" |}; LocalZones := [] |}, None).
Proof. vm_compute. reflexivity. Qed.

(** Three zones outside us-east-1 all come back, in the order drawn. *)
Example three_zones_order_is_drawn_test :
  (GetAvailabilityZones 1 reversePerm
     (mockEC2 (mockZones "us-west-1" threeZones)) "us-west-1" emptyWorld).1
  = Returned (["zone3"; "zone2"; "zone1"], None).
Proof. vm_compute. reflexivity. Qed.

(** A list shorter than the target count is drawn from again: a name comes
    back twice. *)
Example short_list_repeats_test :
  selectLoop 3 reversePerm 0 3 ["zone1"; "zone2"] []
  = Returned ["zone2"; "zone1"; "zone2"].
Proof. vm_compute. reflexivity. Qed.

Example empty_list_runs_on_test :
  selectLoop 50 reversePerm 0 3 [] [] = OutOfFuel.
Proof. vm_compute. reflexivity. Qed.

End AzProps.

Module LabelProps.
Import Label.

Lemma isFallbackTriggering_spec (e : error) :
  isFallbackTriggering e = true ↔ validationClass e.
Proof.
  unfold isFallbackTriggering, validationClass. split.
  - destruct (rootCause e) as [[] msg| |]; try done. by exists msg.
  - by intros [msg ->].
Qed.

Lemma isFallbackTriggering_wrapped (msg : string) (e : error) :
  isFallbackTriggering (wrapped msg e) = isFallbackTriggering e.
Proof. reflexivity. Qed.

Lemma not_validationClass (e : error) :
  ¬ validationClass e → isFallbackTriggering e = false.
Proof.
  intros Hnot. destruct (isFallbackTriggering e) eqn:Hf; [|done].
  by apply isFallbackTriggering_spec in Hf.
Qed.

Lemma contactsRemote_app (calls calls' : list call) :
  contactsRemote (calls ++ calls') = contactsRemote calls || contactsRemote calls'.
Proof. apply existsb_app. Qed.

(** C1: each of [Get], [Set] and [Unset] contacts the remote control plane
    precisely when the Stack Service call fails with an error that, unwrapped
    through its wrapping layers, is a control-plane error of the validation
    class; on any other Stack Service error the operation returns that error
    as it is, having called the Stack Service only. *)
Theorem fallback_precisely_on_validation_error
    (toTagSet : gmap string (option string) → gmap string string)
    (m : Manager) (group : string) (labels : gmap string string)
    (keys : list string) :
  (contactsRemote (Get toTagSet m group []).2 = true
   ↔ ∃ e, GetLabels (service m) group = inr e ∧ validationClass e)
  ∧ (contactsRemote (Set_ m group labels []).2 = true
     ↔ ∃ e, UpdateLabels (service m) group labels [] = Some e
            ∧ validationClass e)
  ∧ (contactsRemote (Unset m group keys []).2 = true
     ↔ ∃ e, UpdateLabels (service m) group ∅ keys = Some e
            ∧ validationClass e)
  ∧ (∀ e, GetLabels (service m) group = inr e → ¬ validationClass e →
          Get toTagSet m group [] = (([], Some e), [StackGetLabels group]))
  ∧ (∀ e, UpdateLabels (service m) group labels [] = Some e →
          ¬ validationClass e →
          Set_ m group labels []
          = (Some e, [StackUpdateLabels group labels []]))
  ∧ (∀ e, UpdateLabels (service m) group ∅ keys = Some e →
          ¬ validationClass e →
          Unset m group keys [] = (Some e, [StackUpdateLabels group ∅ keys])).
Proof.
  unfold Get, Set_, Unset, bind, callGetLabels, callUpdateLabels,
    callDescribeNodegroup, callUpdateNodegroupConfig, record, ret.
  simpl. repeat split.
  - destruct (GetLabels (service m) group) as [tags|e]; simpl; [done|].
    destruct (isFallbackTriggering e) eqn:Hf; simpl; [|done].
    intros _. exists e. split; [done|]. by apply isFallbackTriggering_spec.
  - intros (e & -> & Hv). apply isFallbackTriggering_spec in Hv.
    rewrite Hv. simpl. by destruct (DescribeNodegroup _ _ _).
  - destruct (UpdateLabels (service m) group labels []) as [e|]; simpl; [|done].
    destruct (isFallbackTriggering e) eqn:Hf; simpl; [|done].
    intros _. exists e. split; [done|]. by apply isFallbackTriggering_spec.
  - intros (e & -> & Hv). apply isFallbackTriggering_spec in Hv.
    by rewrite Hv.
  - destruct (UpdateLabels (service m) group ∅ keys) as [e|]; simpl; [|done].
    destruct (isFallbackTriggering e) eqn:Hf; simpl; [|done].
    intros _. exists e. split; [done|]. by apply isFallbackTriggering_spec.
  - intros (e & -> & Hv). apply isFallbackTriggering_spec in Hv.
    by rewrite Hv.
  - intros e -> Hnot. by rewrite (not_validationClass e Hnot).
  - intros e -> Hnot. by rewrite (not_validationClass e Hnot).
  - intros e -> Hnot. by rewrite (not_validationClass e Hnot).
Qed.

Lemma fallback_precisely_on_validation_error_witness :
  Get dropNulls
    (testManager (inr (otherError "something-terrible")) None
       (inl {[ "k1" := Some "v1" ]}) None) "bar" []
  = (([], Some (otherError "something-terrible")), [StackGetLabels "bar"]).
Proof.
  destruct (fallback_precisely_on_validation_error dropNulls
              (testManager (inr (otherError "something-terrible")) None
                 (inl {[ "k1" := Some "v1" ]}) None) "bar" ∅ [])
    as (_ & _ & _ & Hget & _).
  apply (Hget (otherError "something-terrible")).
  - reflexivity.
  - intros [msg Hmsg]. discriminate Hmsg.
Defined.

Example get_owned_test :
  (Get dropNulls
     (testManager (inl {[ "k1" := "v1" ]}) None (inr (otherError "unused")) None)
     "bar" [])
  = (([{| Cluster := "foo"; NodeGroup := "bar";
          Labels := {[ "k1" := "v1" ]} |}], None),
     [StackGetLabels "bar"]).
Proof. reflexivity. Qed.

Example get_not_owned_test :
  (Get dropNulls
     (testManager (inr notOwnedError) None (inl {[ "k1" := Some "v1" ]}) None)
     "bar" []).2
  = [StackGetLabels "bar"; RemoteDescribe "foo" "bar"].
Proof. reflexivity. Qed.

Example get_not_owned_remote_error_test :
  (Get dropNulls
     (testManager (inr notOwnedError) None (inr (otherError "oh-noes")) None)
     "bar" []).1
  = ([], Some (otherError "oh-noes")).
Proof. reflexivity. Qed.

Example set_not_owned_test :
  Set_ (testManager (inr notOwnedError) (Some notOwnedError)
          (inr (otherError "unused")) None) "bar" {[ "k1" := "v1" ]} []
  = (None,
     [StackUpdateLabels "bar" {[ "k1" := "v1" ]} [];
      RemoteUpdate "foo" "bar" (AddOrUpdateLabels {[ "k1" := "v1" ]})]).
Proof. reflexivity. Qed.

Example unset_not_owned_test :
  Unset (testManager (inr notOwnedError) (Some notOwnedError)
           (inr (otherError "unused")) None) "bar" ["k1"] []
  = (None,
     [StackUpdateLabels "bar" ∅ ["k1"];
      RemoteUpdate "foo" "bar" (RemoveLabels ["k1"])]).
Proof. reflexivity. Qed.

End LabelProps.

(** * Further properties of the zone selector *)

Module AzMore.
Import Az AzProps.

(** ** The source's failure *)

Lemma GetAvailabilityZones_run_error (fuel : nat)
    (randPerm : nat → nat → list nat) (ec2API : EC2API) (region : string)
    (cause : error) (w : World) :
  DescribeAvailabilityZones ec2API (zonesInput region) = inr cause →
  (GetAvailabilityZones fuel randPerm ec2API region w).1
  = Returned ([], Some (wrapError
                          ("error getting availability zones for region "
                             +:+ region +:+ ": " +:+ Error cause) cause)).
Proof.
  intros Hout.
  unfold GetAvailabilityZones, getAvailabilityZones, bind,
    callDescribeAvailabilityZones, ret.
  by rewrite Hout.
Qed.

(** X1: When the query fails [GetAvailabilityZones] returns no zones and an error
    that wraps the cause and reads "error getting availability zones for
    region <region>: <cause>"; no selection is run, whatever the random
    source. *)
Theorem GetAvailabilityZones_source_failure (fuel : nat)
    (randPerm : nat → nat → list nat) (ec2API : EC2API) (region : string)
    (cause : error) (w : World) :
  DescribeAvailabilityZones ec2API (zonesInput region) = inr cause →
  ∃ e,
    (GetAvailabilityZones fuel randPerm ec2API region w).1
    = Returned ([], Some e)
    ∧ Unwrap e = Some cause
    ∧ Error e
      = "error getting availability zones for region " +:+ region
          +:+ ": " +:+ Error cause.
Proof.
  intros Hout. rewrite (GetAvailabilityZones_run_error _ _ _ _ _ _ Hout).
  by eexists.
Qed.

Lemma GetAvailabilityZones_source_failure_witness :
  ∃ e,
    (GetAvailabilityZones 0 identityPerm (failingEC2 (errorString "foo"))
       "us-west-1" emptyWorld).1 = Returned ([], Some e)
    ∧ Unwrap e = Some (errorString "foo")
    ∧ Error e = "error getting availability zones for region us-west-1: foo".
Proof.
  apply (GetAvailabilityZones_source_failure 0 identityPerm
           (failingEC2 (errorString "foo")) "us-west-1" (errorString "foo")
           emptyWorld).
  reflexivity.
Defined.

(** ** The queries issued *)

(** X2: Whatever the source answers, and whatever the random source,
    [GetAvailabilityZones] issues exactly one query, for the region's zones in
    state "available" and with no zone names, and logs nothing. *)
Theorem GetAvailabilityZones_one_query (fuel : nat)
    (randPerm : nat → nat → list nat) (ec2API : EC2API) (region : string)
    (w : World) :
  (GetAvailabilityZones fuel randPerm ec2API region w).2
  = {| ec2Calls :=
         ec2Calls w
           ++ [{| ZoneNames := [];
                  Filters := [{| Name := "region-name"; Values := [region] |};
                              {| Name := "state"; Values := ["available"] |}]
               |}];
       logWarnings := logWarnings w |}.
Proof.
  unfold GetAvailabilityZones, getAvailabilityZones, bind,
    callDescribeAvailabilityZones, ret.
  destruct (DescribeAvailabilityZones ec2API (zonesInput region)); simpl;
    [|done].
  by repeat case_decide.
Qed.

(** X3: For a non-empty requested list, and whatever the source answers,
    [SetLocalZones] issues exactly one query: for the requested names, in the
    region, of zone type "local-zone" and in state "available". *)
Theorem SetLocalZones_one_query (spec : ClusterConfig) (ec2Api : EC2API)
    (region : string) (w : World) :
  LocalZones spec ≠ [] →
  ec2Calls (SetLocalZones spec ec2Api region w).2
  = ec2Calls w
      ++ [{| ZoneNames := LocalZones spec;
             Filters := [{| Name := "region-name"; Values := [region] |};
                         {| Name := "zone-type"; Values := ["local-zone"] |};
                         {| Name := "state"; Values := ["available"] |}] |}].
Proof. intros Hne. by rewrite SetLocalZones_run. Qed.

Lemma SetLocalZones_one_query_witness :
  ec2Calls
    (SetLocalZones {| VPC := {| ID := "" |}; LocalZones := ["zone3"] |}
       (failingEC2 (errorString "err")) "us-west-2" emptyWorld).2
  = [] ++ [{| ZoneNames := ["zone3"];
        Filters := [{| Name := "region-name"; Values := ["us-west-2"] |};
                    {| Name := "zone-type"; Values := ["local-zone"] |};
                    {| Name := "state"; Values := ["available"] |}] |}].
Proof.
  apply (SetLocalZones_one_query
           {| VPC := {| ID := "" |}; LocalZones := ["zone3"] |}
           (failingEC2 (errorString "err")) "us-west-2" emptyWorld).
  discriminate.
Defined.

(** ** The filter and the table *)

Lemma avoided_other (region : string) :
  region ≠ "cn-north-1" → avoided region = [].
Proof.
  intros Hne. unfold avoided, zoneIDsToAvoid, RegionCNNorth1.
  by rewrite lookup_singleton_ne.
Qed.

(** X4: Outside cn-north-1 the table has no entry and the filter keeps every
    zone: the result is the names of all the zones, in order. *)
Theorem filterZones_other_region (region : string)
    (zones : list AvailabilityZone) :
  region ≠ "cn-north-1" → filterZones region zones = ZoneName <$> zones.
Proof.
  intros Hne. rewrite filterZones_filter. f_equal.
  induction zones as [|z zones IH]; [done|].
  rewrite filter_cons_True, IH; [done|].
  unfold denylisted. rewrite avoided_other by done. apply not_elem_of_nil.
Qed.

Lemma filterZones_other_region_witness :
  filterZones "us-west-1"
    [createAvailabilityZoneWithID "us-west-1" "available" "zone1" "cnn1-az4"]
  = ZoneName
      <$> [createAvailabilityZoneWithID "us-west-1" "available" "zone1"
             "cnn1-az4"].
Proof.
  apply (filterZones_other_region "us-west-1"
           [createAvailabilityZoneWithID "us-west-1" "available" "zone1"
              "cnn1-az4"]).
  discriminate.
Defined.

(** X5: In cn-north-1 a zone is dropped exactly when its identifier is
    "cnn1-az4", whatever its name. *)
Theorem filterZones_cn_north_1 (zones : list AvailabilityZone) :
  filterZones "cn-north-1" zones
  = ZoneName <$> filter (λ z, ZoneId z ≠ "cnn1-az4") zones.
Proof.
  rewrite filterZones_filter. f_equal. apply list_filter_iff.
  intros z. unfold denylisted.
  change (avoided "cn-north-1") with ["cnn1-az4"].
  by rewrite list_elem_of_singleton.
Qed.

(** X6: The filter keeps the source's order and invents nothing: its result is a
    subsequence of the names of the zones given. *)
Theorem filterZones_sublist (region : string) (zones : list AvailabilityZone) :
  filterZones region zones `sublist_of` (ZoneName <$> zones)
  ∧ length (filterZones region zones) ≤ length zones.
Proof.
  assert (filterZones region zones `sublist_of` (ZoneName <$> zones)) as Hsub.
  { rewrite filterZones_filter. apply fmap_sublist, sublist_filter. }
  split; [done|]. apply sublist_length in Hsub. by rewrite length_fmap in Hsub.
Qed.

(** X7: Filtering two answers one after the other is filtering them at once. *)
Theorem filterZones_app (region : string) (zones zones' : list AvailabilityZone) :
  filterZones region (zones ++ zones')
  = filterZones region zones ++ filterZones region zones'.
Proof. by rewrite !filterZones_filter, filter_app, fmap_app. Qed.

(** X8: The zones the tests build with [createAvailabilityZone] carry the
    identifier "id-<name>", which no entry of the table holds: in every region
    the filter returns all their names. *)
Theorem filterZones_created_zones (region region' state : string)
    (names : list string) :
  filterZones region (createAvailabilityZone region' state <$> names) = names.
Proof.
  rewrite filterZones_filter.
  induction names as [|name names IH]; [done|].
  rewrite fmap_cons, filter_cons_True, fmap_cons, IH; [done|].
  unfold denylisted, avoided, zoneIDsToAvoid, RegionCNNorth1.
  destruct (decide (region = "cn-north-1")) as [->|Hne].
  - rewrite lookup_singleton_eq. simpl. by rewrite list_elem_of_singleton.
  - rewrite lookup_singleton_ne by done. apply not_elem_of_nil.
Qed.

(** ** The selection as a whole *)

Lemma drawnAt_functional (avail : list string) (idxs : list nat)
    (zs zs' : list string) :
  drawnAt avail idxs zs → drawnAt avail idxs zs' → zs = zs'.
Proof.
  intros Hd. revert zs'.
  induction Hd as [|i z idxs zs Hi Hd IH]; intros zs' Hd'; inversion Hd';
    subst; [done|].
  f_equal; [congruence|by apply IH].
Qed.

Lemma appendDrawn_length (desired : nat) (avail : list string)
    (perm : list nat) (zones zones' : list string) :
  appendDrawn desired avail perm zones = Some zones' →
  length zones < desired → length zones' ≤ desired.
Proof.
  revert zones. induction perm as [|rn perm IH]; intros zones Heq Hlt;
    simpl in Heq.
  - inversion Heq; subst. lia.
  - destruct (avail !! rn) as [z|]; [|done].
    case_decide as Hlen; [inversion Heq; subst; lia|].
    rewrite length_app in Hlen. simpl in Hlen.
    eapply IH; [done|]. rewrite length_app. simpl. lia.
Qed.

(** The loop never holds more zones than asked for: what it returns has
    exactly the target length, whatever the random source. *)
Lemma selectLoop_returned_length (randPerm : nat → nat → list nat)
    (desired : nat) (avail : list string) :
  ∀ fuel k zones zs,
    selectLoop fuel randPerm k desired avail zones = Returned zs →
    length zones ≤ desired → length zs = desired.
Proof.
  induction fuel as [|fuel IH]; intros k zones zs Heq Hle; simpl in Heq;
    case_decide; try done; try (inversion Heq; subst; lia).
  destruct (appendDrawn desired avail (randPerm k (length avail)) zones)
    as [zones'|] eqn:Happ; [|done].
  eapply IH; [done|]. by eapply appendDrawn_length.
Qed.



(** X10: A successful [GetAvailabilityZones] hands out 2 or 3 zones, never more
    and never fewer, and exactly 2 in us-east-1; this holds for any random
    source, also one that breaks [rand.Perm]'s contract. *)
Theorem GetAvailabilityZones_count (fuel : nat)
    (randPerm : nat → nat → list nat) (ec2API : EC2API) (region : string)
    (w : World) (zs : list string) :
  (GetAvailabilityZones fuel randPerm ec2API region w).1 = Returned (zs, None) →
  2 ≤ length zs ≤ 3 ∧ (region = "us-east-1" → length zs = 2).
Proof.
  intros Hrun.
  destruct (DescribeAvailabilityZones ec2API (zonesInput region))
    as [output|cause] eqn:Hout.
  - rewrite (GetAvailabilityZones_run _ _ _ _ _ _ Hout) in Hrun.
    simpl in Hrun.
    unfold MinRequiredAvailabilityZones, RecommendedAvailabilityZones in Hrun.
    repeat case_decide; try done.
    + inversion Hrun; subst. lia.
    + unfold randomSelectionOfZones in Hrun.
      destruct (selectLoop fuel randPerm 0 (desiredNumberOfAZs region)
                  (filterZones region (AvailabilityZones output)) [])
        as [zs'| |] eqn:Hloop; simpl in Hrun; [|done..].
      inversion Hrun; subst zs'.
      apply selectLoop_returned_length in Hloop; [|simpl; lia].
      rewrite Hloop. unfold desiredNumberOfAZs, RegionUSEast1,
        MinRequiredAvailabilityZones, RecommendedAvailabilityZones.
      case_decide; split; try done; lia.
  - by rewrite (GetAvailabilityZones_run_error _ _ _ _ _ _ Hout) in Hrun.
Qed.

Lemma GetAvailabilityZones_count_witness :
  2 ≤ length ["zone4"; "zone3"] ≤ 3
  ∧ ("us-east-1" = "us-east-1" → length ["zone4"; "zone3"] = 2).
Proof.
  apply (GetAvailabilityZones_count 1 reversePerm
           (mockEC2 (mockZones "us-east-1" fourZones)) "us-east-1" emptyWorld
           ["zone4"; "zone3"]).
  vm_compute. reflexivity.
Defined.

(** X11: Zones and an error never come together: when [GetAvailabilityZones]
    returns an error it returns no zones. *)
Theorem GetAvailabilityZones_no_partial_result (fuel : nat)
    (randPerm : nat → nat → list nat) (ec2API : EC2API) (region : string)
    (w : World) (zs : list string) (e : error) :
  (GetAvailabilityZones fuel randPerm ec2API region w).1
  = Returned (zs, Some e) →
  zs = [].
Proof.
  intros Hrun.
  destruct (DescribeAvailabilityZones ec2API (zonesInput region))
    as [output|cause] eqn:Hout.
  - rewrite (GetAvailabilityZones_run _ _ _ _ _ _ Hout) in Hrun.
    simpl in Hrun. repeat case_decide; try by inversion Hrun.
    destruct (randomSelectionOfZones fuel randPerm region
                (filterZones region (AvailabilityZones output)));
      by inversion Hrun.
  - rewrite (GetAvailabilityZones_run_error _ _ _ _ _ _ Hout) in Hrun.
    by inversion Hrun.
Qed.

Lemma GetAvailabilityZones_no_partial_result_witness :
  @nil string = [].
Proof.
  apply (GetAvailabilityZones_no_partial_result 1 identityPerm
           (mockEC2 (mockZones "us-west-1" ["zone1"])) "us-west-1" emptyWorld
           []
           (errorString
              "only 1 zones discovered [zone1], at least 2 are required")).
  vm_compute. reflexivity.
Defined.

(** X12: Only the first permutation drawn matters: two random sources that keep
    the contract and agree on their first draw give the same result, whatever
    the fuel. *)
Theorem GetAvailabilityZones_first_draw_only (fuel fuel' : nat)
    (randPerm randPerm' : nat → nat → list nat) (ec2API : EC2API)
    (region : string) (w : World) :
  permSource randPerm → permSource randPerm' → 0 < fuel → 0 < fuel' →
  (∀ n, randPerm 0 n = randPerm' 0 n) →
  (GetAvailabilityZones fuel randPerm ec2API region w).1
  = (GetAvailabilityZones fuel' randPerm' ec2API region w).1.
Proof.
  intros Hperm Hperm' Hfuel Hfuel' Hsame.
  destruct (DescribeAvailabilityZones ec2API (zonesInput region))
    as [output|cause] eqn:Hout.
  - destruct (decide (RecommendedAvailabilityZones
                        ≤ length (filterZones region (AvailabilityZones output))))
      as [Hmany|Hfew].
    + destruct (GetAvailabilityZones_draws fuel randPerm ec2API region output w)
        as (zs & -> & Hd & _); [done..|].
      destruct (GetAvailabilityZones_draws fuel' randPerm' ec2API region
                  output w) as (zs' & -> & Hd' & _); [done..|].
      rewrite Hsame in Hd. by rewrite (drawnAt_functional _ _ _ _ Hd Hd').
    + rewrite !(GetAvailabilityZones_run _ _ _ _ _ _ Hout). simpl.
      repeat case_decide; try done. lia.
  - by rewrite !(GetAvailabilityZones_run_error _ _ _ _ _ _ Hout).
Qed.

Lemma GetAvailabilityZones_first_draw_only_witness :
  (GetAvailabilityZones 1 reversePerm
     (mockEC2 (mockZones "us-west-1" fourZones)) "us-west-1" emptyWorld).1
  = (GetAvailabilityZones 7 reversePerm
       (mockEC2 (mockZones "us-west-1" fourZones)) "us-west-1" emptyWorld).1.
Proof.
  apply (GetAvailabilityZones_first_draw_only 1 7 reversePerm reversePerm
           (mockEC2 (mockZones "us-west-1" fourZones)) "us-west-1" emptyWorld).
  - exact reversePerm_source.
  - exact reversePerm_source.
  - lia.
  - lia.
  - reflexivity.
Defined.

(** X13: With at least three zones to choose from, us-east-1 gets the first two
    of the three zones any other region would get from the same draw. *)
Theorem randomSelectionOfZones_us_east_1_prefix (fuel : nat)
    (randPerm : nat → nat → list nat) (region : string)
    (avail : list string) :
  permSource randPerm → 0 < fuel → 3 ≤ length avail →
  region ≠ "us-east-1" →
  randomSelectionOfZones fuel randPerm "us-east-1" avail
  = outcome_map (take 2) (randomSelectionOfZones fuel randPerm region avail).
Proof.
  intros Hperm Hfuel Hlen Hne. unfold randomSelectionOfZones.
  assert (desiredNumberOfAZs "us-east-1" = 2) as -> by reflexivity.
  assert (desiredNumberOfAZs region = 3) as ->.
  { unfold desiredNumberOfAZs, RegionUSEast1. by case_decide. }
  destruct (selectLoop_first_draw fuel randPerm 0 2 avail)
    as (zs2 & -> & Hd2 & _); [done|done|lia|].
  destruct (selectLoop_first_draw fuel randPerm 0 3 avail)
    as (zs3 & -> & Hd3 & _); [done|done|lia|].
  simpl. f_equal. eapply drawnAt_functional; [done|].
  apply (Forall2_take _ _ _ 2) in Hd3. by rewrite take_take in Hd3.
Qed.

Lemma randomSelectionOfZones_us_east_1_prefix_witness :
  randomSelectionOfZones 1 reversePerm "us-east-1" fourZones
  = outcome_map (take 2)
      (randomSelectionOfZones 1 reversePerm "us-west-1" fourZones).
Proof.
  apply (randomSelectionOfZones_us_east_1_prefix 1 reversePerm "us-west-1"
           fourZones reversePerm_source).
  - lia.
  - simpl. lia.
  - discriminate.
Defined.

(** ** Local zones that all vanish *)

(** X14: For a non-empty requested list and a successful query, [SetLocalZones]
    leaves the zone-list field empty, still without an error, exactly when
    every zone the source returned is denylisted (in particular when it
    returned none). *)
Theorem SetLocalZones_all_dropped (spec : ClusterConfig) (ec2Api : EC2API)
    (region : string) (output : DescribeAvailabilityZonesOutput) (w : World) :
  LocalZones spec ≠ [] →
  DescribeAvailabilityZones ec2Api (localZonesInput spec region) = inl output →
  (SetLocalZones spec ec2Api region w).1.2 = None
  ∧ (LocalZones (SetLocalZones spec ec2Api region w).1.1 = []
     ↔ ∀ z, z ∈ AvailabilityZones output → denylisted region z).
Proof.
  intros Hne Hout. rewrite SetLocalZones_run, Hout by done. simpl.
  split; [done|]. rewrite filterZones_filter. split.
  - intros Hnil z Hz. apply fmap_nil_inv in Hnil.
    destruct (decide (denylisted region z)) as [|Hnot]; [done|].
    by destruct (filter_nil_not_elem_of _ _ z Hnil Hnot).
  - intros Hall. induction (AvailabilityZones output) as [|z zones IH];
      [done|].
    rewrite filter_cons_False.
    + apply IH. intros z' Hz'. apply Hall. by right.
    + intros Hnot. apply Hnot, Hall. by left.
Qed.

Lemma SetLocalZones_all_dropped_witness :
  (SetLocalZones {| VPC := {| ID := "" |}; LocalZones := ["cnn1-az4"] |}
     (mockEC2 [createAvailabilityZoneWithID RegionCNNorth1 "available"
                 "cnn1-az4" "cnn1-az4"])
     RegionCNNorth1 emptyWorld).1.2 = None
  ∧ (LocalZones
       (SetLocalZones {| VPC := {| ID := "" |}; LocalZones := ["cnn1-az4"] |}
          (mockEC2 [createAvailabilityZoneWithID RegionCNNorth1 "available"
                      "cnn1-az4" "cnn1-az4"])
          RegionCNNorth1 emptyWorld).1.1 = []
     ↔ ∀ z,
         z ∈ [createAvailabilityZoneWithID RegionCNNorth1 "available"
                "cnn1-az4" "cnn1-az4"] →
         denylisted RegionCNNorth1 z).
Proof.
  apply (SetLocalZones_all_dropped
           {| VPC := {| ID := "" |}; LocalZones := ["cnn1-az4"] |}
           (mockEC2 [createAvailabilityZoneWithID RegionCNNorth1 "available"
                       "cnn1-az4" "cnn1-az4"])
           RegionCNNorth1
           {| AvailabilityZones :=
                [createAvailabilityZoneWithID RegionCNNorth1 "available"
                   "cnn1-az4" "cnn1-az4"] |}
           emptyWorld).
  - discriminate.
  - reflexivity.
Defined.

(** ** The uniqueness check of the tests *)

Lemma mapZones_size (zones : list string) :
  ∀ m : gmap string unit,
    size (fold_left (λ (m : gmap string unit) z, <[z := tt]> m) zones m)
      ≤ size m + length zones
    ∧ (size (fold_left (λ (m : gmap string unit) z, <[z := tt]> m) zones m)
         = size m + length zones
       ↔ NoDup zones ∧ ∀ z, z ∈ zones → m !! z = None).
Proof.
  induction zones as [|x zones IH]; intros m; simpl.
  - split; [lia|]. split; [|lia]. intros _. split; [constructor|].
    intros z Hz. by apply elem_of_nil in Hz.
  - destruct (IH (<[x:=tt]> m)) as [Hle Hiff].
    destruct (m !! x) as [[]|] eqn:Hx.
    + rewrite map_size_insert_Some in Hle by eauto.
      rewrite map_size_insert_Some in Hiff by eauto.
      split; [lia|]. split; [lia|]. intros [_ Hfresh].
      specialize (Hfresh x (list_elem_of_here _ _)). congruence.
    + rewrite map_size_insert_None in Hle, Hiff by done.
      split; [lia|]. rewrite NoDup_cons.
      replace (size m + S (length zones)) with (S (size m) + length zones)
        by lia.
      rewrite Hiff. split.
      * intros [Hnodup Hfresh]. split; [split; [|done]|].
        -- intros Hin. specialize (Hfresh x Hin).
           by rewrite lookup_insert_eq in Hfresh.
        -- intros z Hz. apply elem_of_cons in Hz as [->|Hz]; [done|].
           specialize (Hfresh z Hz).
           apply lookup_insert_None in Hfresh. tauto.
      * intros [[Hnotin Hnodup] Hfresh]. split; [done|].
        intros z Hz. apply lookup_insert_None. split.
        -- apply Hfresh. by right.
        -- intros ->. done.
Qed.

(** X15: [zonesAreUnique] answers true exactly for the lists without a repeated
    zone. *)
Theorem zonesAreUnique_NoDup (zones : list string) :
  zonesAreUnique zones = true ↔ NoDup zones.
Proof.
  unfold zonesAreUnique. rewrite bool_decide_eq_true.
  destruct (mapZones_size zones ∅) as [_ Hiff].
  rewrite map_size_empty in Hiff. simpl in Hiff. rewrite Hiff.
  split; [tauto|]. intros Hnodup. split; [done|].
  intros z _. apply lookup_empty.
Qed.

End AzMore.
